(** * The GraphQL resolver table of [src/index.ts] over its in-memory collections

    The program declares a schema ([typeDefs]), a table of resolver functions
    ([resolvers]) and four module-level arrays ([books], [authors],
    [libraries], [booksNew]).  Resolvers are JavaScript functions; the
    execution engine calls each of them as
    [resolver(parent, args, contextValue, info)].

    The embedding keeps JavaScript values dynamic, threads the module-level
    arrays through every call as an explicit store, and lets a call either
    return a value or throw. *)

From Stdlib Require Import String ZArith List Bool Permutation Relations.
Import ListNotations.
Open Scope string_scope.

Set Warnings "-register-all".

(** ** JavaScript values *)

(** The values that occur in the program: [undefined], [null], the integer
    literals 6 and 7, strings, object literals and arrays.  An object keeps
    its properties in insertion order. *)
Inductive value : Type :=
| VUndefined
| VNull
| VNumber (n : Z)
| VString (s : string)
| VObject (props : list (string * value))
| VArray (items : list value).

(** [x === y].  Primitives are compared by type and content, and an object
    or an array is never equal to a primitive.  Two objects are equal when
    they are the same reference; the embedding carries no references and
    answers [false] there.  In every comparison made below one operand is a
    string. *)
Definition strict_eq (x y : value) : bool :=
  match x, y with
  | VUndefined, VUndefined => true
  | VNull, VNull => true
  | VNumber a, VNumber b => Z.eqb a b
  | VString a, VString b => String.eqb a b
  | _, _ => false
  end.

(** Own-property lookup in an object literal. *)
Fixpoint lookup {A : Type} (k : string) (l : list (string * A)) : option A :=
  match l with
  | [] => None
  | (k', v) :: l' => if String.eqb k k' then Some v else lookup k l'
  end.

Definition own_property (props : list (string * value)) (k : string) : value :=
  match lookup k props with
  | Some v => v
  | None => VUndefined
  end.

(** ** Calls: a store, and a result or an exception *)

(** The module-level bindings, lines 129-176.  Each is initialised with an
    array literal once the module body has run. *)
Record store : Type := mkStore {
  books : list value;
  authors : list value;
  libraries : list value;
  booksNew : list value
}.

Inductive error : Type :=
| TypeError      (* thrown by JavaScript: property read on undefined or null *)
| GraphQLError.  (* reported by the engine *)

Inductive outcome (A : Type) : Type :=
| Ok (a : A)
| Throw (e : error).
Arguments Ok {A} a.
Arguments Throw {A} e.

Definition M (A : Type) : Type := store -> outcome A * store.

Definition ret {A : Type} (a : A) : M A := fun st => (Ok a, st).

Definition throw {A : Type} (e : error) : M A := fun st => (Throw e, st).

Definition bind {A B : Type} (m : M A) (k : A -> M B) : M B :=
  fun st =>
    match m st with
    | (Ok a, st') => k a st'
    | (Throw e, st') => (Throw e, st')
    end.

Declare Scope js_scope.
Delimit Scope js_scope with js.
Notation "'let*' x ':=' m 'in' k" := (bind m (fun x => k))
  (at level 10, x name, m at level 100, k at level 200) : js_scope.
Open Scope js_scope.

(** Reading a module-level binding. *)
Definition read (sel : store -> list value) : M value :=
  fun st => (Ok (VArray (sel st)), st).

(** [v.k] for a static property name [k].  Reading a property of
    [undefined] or [null] throws; a string, a number or an array has none of
    the names the program reads ([id], [branch], [author]). *)
Definition get (v : value) (k : string) : M value :=
  match v with
  | VUndefined | VNull => throw TypeError
  | VObject props => ret (own_property props k)
  | VNumber _ | VString _ | VArray _ => ret VUndefined
  end.

(** [Array.prototype.find]: the first element on which the callback holds,
    else [undefined].  The callback runs on the elements in order and stops
    at the first hit. *)
Fixpoint array_find (cb : value -> M bool) (items : list value) : M value :=
  match items with
  | [] => ret VUndefined
  | x :: rest =>
      let* hit := cb x in
      if hit then ret x else array_find cb rest
  end.

(** [Array.prototype.filter]: a new array of the elements on which the
    callback holds, in order. *)
Fixpoint array_filter (cb : value -> M bool) (items : list value) : M (list value) :=
  match items with
  | [] => ret []
  | x :: rest =>
      let* keep := cb x in
      let* kept := array_filter cb rest in
      ret (if keep then x :: kept else kept)
  end.

(** ** The seed data, lines 129-176 *)

Definition seed_books : list value :=
  [ VObject [("title", VString "The Awakening");
             ("author", VObject [("name", VString "Kate Chopin")])];
    VObject [("title", VString "City of Glass");
             ("author", VObject [("name", VString "Paul Auster")])] ].

Definition seed_authors : list value :=
  [ VObject [("id", VString "1");
             ("name", VString "Kate Chopin");
             ("books", VArray [VObject [("title", VString "The Awakening")]])];
    VObject [("id", VString "2");
             ("name", VString "Paul Auster");
             ("books", VArray [VObject [("title", VString "City of Glass")]])] ].

Definition seed_libraries : list value :=
  [ VObject [("branch", VString "downtown")];
    VObject [("branch", VString "riverside")] ].

Definition seed_booksNew : list value :=
  [ VObject [("title", VString "The Awakening");
             ("author", VString "Kate Chopin");
             ("branch", VString "riverside")];
    VObject [("title", VString "City of Glass");
             ("author", VString "Paul Auster");
             ("branch", VString "downtown")] ].

Definition seed_store : store :=
  {| books := seed_books;
     authors := seed_authors;
     libraries := seed_libraries;
     booksNew := seed_booksNew |}.

(** ** The resolvers, lines 65-110 *)

(** Each function takes the parameters it declares. *)

(** [books: () => books] *)
Definition Query_books : M value := read books.

(** [authors: () => authors] *)
Definition Query_authors : M value := read authors.

(** [author: (parent, args, contextValue, info) =>
       authors.find((item) => item.id === args.id)] *)
Definition Query_author (parent args contextValue info : value) : M value :=
  fun st =>
    array_find
      (fun item =>
         let* a := get item "id" in
         let* b := get args "id" in
         ret (strict_eq a b))
      (authors st) st.

(** [numberSix() { return 6; }] *)
Definition Query_numberSix : M value := ret (VNumber 6).

(** [numberSeven() { return 7; }] *)
Definition Query_numberSeven : M value := ret (VNumber 7).

(** [libraries() { return libraries; }] *)
Definition Query_libraries : M value := read libraries.

(** [booksNew(parent) {
       return booksNew.filter((book) => book.branch === parent.branch); }] *)
Definition Library_booksNew (parent : value) : M value :=
  fun st =>
    (let* kept :=
       array_filter
         (fun book =>
            let* a := get book "branch" in
            let* b := get parent "branch" in
            ret (strict_eq a b))
         (booksNew st) in
     ret (VArray kept)) st.

(** [author(parent) { return { name: parent.author }; }] *)
Definition BookNew_author (parent : value) : M value :=
  let* a := get parent "author" in
  ret (VObject [("name", a)]).

(** [addBook: (title: String, author: String) => {
       return [...books, { title, author }]; }]
    The type annotations are erased; the function appends one object built
    from its first and second parameter to a copy of [books]. *)
Definition Mutation_addBook (title author : value) : M value :=
  fun st =>
    ret (VArray (books st ++ [VObject [("title", title); ("author", author)]])) st.

(** ** The resolver table *)

(** The engine calls every resolver with four arguments, named at line 69:
    [parent], [args], [contextValue], [info].  A JavaScript function binds
    its declared parameters to the leading arguments and ignores the rest. *)
Definition resolver : Type := value -> value -> value -> value -> M value.

Definition resolvers : list (string * list (string * resolver)) :=
  [ ("Query",
      [ ("books", fun _ _ _ _ => Query_books);
        ("authors", fun _ _ _ _ => Query_authors);
        ("author", Query_author);
        ("numberSix", fun _ _ _ _ => Query_numberSix);
        ("numberSeven", fun _ _ _ _ => Query_numberSeven);
        ("libraries", fun _ _ _ _ => Query_libraries) ]);
    ("Library",
      [ ("booksNew", fun parent _ _ _ => Library_booksNew parent) ]);
    ("BookNew",
      [ ("author", fun parent _ _ _ => BookNew_author parent) ]);
    ("Mutation",
      [ ("addBook", fun title author _ _ => Mutation_addBook title author) ]) ].

(** ** The schema, lines 8-61 *)

Inductive gql_type : Type :=
| Named (n : string)
| ListOf (t : gql_type)
| NonNull (t : gql_type).

Definition typeDefs : list (string * list (string * gql_type)) :=
  [ ("Book", [ ("title", Named "String"); ("author", Named "Author") ]);
    ("Books", [ ("title", Named "String") ]);
    ("Author", [ ("id", NonNull (Named "ID"));
                 ("name", Named "String");
                 ("books", ListOf (Named "Books")) ]);
    ("Library", [ ("branch", NonNull (Named "String"));
                  ("booksNew", ListOf (NonNull (Named "BookNew"))) ]);
    ("BookNew", [ ("title", NonNull (Named "String"));
                  ("author", NonNull (Named "AuthorNew")) ]);
    ("AuthorNew", [ ("name", NonNull (Named "String")) ]);
    ("Query", [ ("books", ListOf (Named "Book"));
                ("authors", ListOf (Named "Author"));
                ("author", Named "Author");
                ("numberSix", NonNull (Named "Int"));
                ("numberSeven", NonNull (Named "Int"));
                ("libraries", ListOf (Named "Library")) ]);
    ("Mutation", [ ("addBook", ListOf (Named "Book")) ]) ].

Definition field_type (typeName fieldName : string) : option gql_type :=
  match lookup typeName typeDefs with
  | Some fields => lookup fieldName fields
  | None => None
  end.

Definition is_object_type (n : string) : bool :=
  match lookup n typeDefs with
  | Some _ => true
  | None => false
  end.

(** ** Field resolution by the execution engine *)

(** Modelled from the spec: the engine's default resolver (section 4.2), used
    for a field with no entry in [resolvers]; it reads the property named
    like the field off the parent object, and yields [undefined] when the
    parent is not an object. *)
Definition defaultFieldResolver (fieldName : string) : resolver :=
  fun source _ _ _ =>
    match source with
    | VObject props => ret (own_property props fieldName)
    | _ => ret VUndefined
    end.

Definition resolve_field (typeName fieldName : string) : resolver :=
  match lookup typeName resolvers with
  | Some fields =>
      match lookup fieldName fields with
      | Some r => r
      | None => defaultFieldResolver fieldName
      end
  | None => defaultFieldResolver fieldName
  end.

(** A requested field: its name, its arguments and its nested selection. *)
Inductive selection : Type :=
| Field (name : string) (args : list (string * value)) (sub : list selection).

Definition selection_name (s : selection) : string :=
  match s with Field name _ _ => name end.

Fixpoint mapM {A B : Type} (f : A -> M B) (l : list A) : M (list B) :=
  match l with
  | [] => ret []
  | x :: rest =>
      let* y := f x in
      let* ys := mapM f rest in
      ret (y :: ys)
  end.

Section Engine.

(** The third and fourth argument of every resolver call; no resolver of
    the table reads them. *)
Variables contextValue info : value.

(** Modelled from the spec: the traversal of section 2.  For each requested
    field the engine calls the resolver with the parent value and the
    field's arguments, then completes the result along the field's declared
    type: an absent result is null, a list is completed element by element,
    an object is completed by resolving the nested selection on it, a
    scalar is passed on, and null in a non-null position is an error.  An
    error ends the traversal here; how the engine reports it beside partial
    data is not part of the embedding, and neither is the coercion of an
    ill-typed scalar.  The traversal takes a request as the engine runs it:
    validated against the schema, its arguments coerced to their declared
    types ([valid_field] below says which requests these are); it does not
    validate or coerce itself. *)
Fixpoint execute_field (typeName : string) (s : selection) (source : value)
  {struct s} : M value :=
  match s with
  | Field name args sub =>
      let execute_set :=
        fix execute_set (T : string) (fs : list selection) (src : value)
          : M (list (string * value)) :=
          match fs with
          | [] => ret []
          | f :: fs' =>
              let* v := execute_field T f src in
              let* rest := execute_set T fs' src in
              ret ((selection_name f, v) :: rest)
          end in
      let complete :=
        fix complete (ty : gql_type) (v : value) {struct ty} : M value :=
          match ty with
          | NonNull t =>
              let* c := complete t v in
              match c with
              | VNull => throw GraphQLError
              | _ => ret c
              end
          | ListOf t =>
              match v with
              | VUndefined | VNull => ret VNull
              | VArray items =>
                  let* cs := mapM (complete t) items in
                  ret (VArray cs)
              | _ => throw GraphQLError
              end
          | Named n =>
              match v with
              | VUndefined | VNull => ret VNull
              | _ =>
                  if is_object_type n
                  then let* fs := execute_set n sub v in ret (VObject fs)
                  else ret v
              end
          end in
      match field_type typeName name with
      | None => throw GraphQLError
      | Some ty =>
          let* v := resolve_field typeName name source (VObject args)
                      contextValue info in
          complete ty v
      end
  end.

(** A root field of a query or of a mutation; the root value is
    [undefined]. *)
Definition execute_query (s : selection) : M value :=
  execute_field "Query" s VUndefined.

Definition execute_mutation (s : selection) : M value :=
  execute_field "Mutation" s VUndefined.

End Engine.

(** ** Reading the results *)

(** [v.k] on a value that is not [undefined] or [null]. *)
Definition prop (v : value) (k : string) : value :=
  match v with
  | VObject props => own_property props k
  | _ => VUndefined
  end.

Definition is_object (v : value) : bool :=
  match v with
  | VObject _ => true
  | _ => false
  end.

(** The entry's branch is the text [b]. *)
Definition has_branch (b : string) (entry : value) : bool :=
  match prop entry "branch" with
  | VString s => String.eqb s b
  | _ => false
  end.

(** The entry's id is the value [id], under [===]. *)
Definition has_id (id : value) (entry : value) : bool :=
  strict_eq (prop entry "id") id.

(** What [Library.booksNew] returns for a library on the seed data. *)
Definition booksNew_under (library : value) : list value :=
  match fst (Library_booksNew library seed_store) with
  | Ok (VArray items) => items
  | _ => []
  end.

(** ** The stores a running server can be in *)

(** A call leaves the store as it found it. *)
Definition preserves {A : Type} (m : M A) : Prop :=
  forall st, snd (m st) = st.

(** The engine touches the store only by calling a resolver: one of the
    table, or the default one. *)
Inductive step : store -> store -> Prop :=
| step_call (typeName fieldName : string) (parent args contextValue info : value)
    (st : store) :
    step st (snd (resolve_field typeName fieldName parent args contextValue info st)).

Inductive reachable : store -> Prop :=
| reach_seed : reachable seed_store
| reach_step (st st' : store) : reachable st -> step st st' -> reachable st'.

(** The request of section 8, property 4, on one library: every BookNew entry
    with its title and its author's name. *)
Definition booksNew_request : selection :=
  Field "booksNew" []
    [ Field "title" [] [];
      Field "author" [] [ Field "name" [] [] ] ].

(** The mutation of section 8, property 5, asking for each book's title and
    its author's name. *)
Definition addBook_request : selection :=
  Field "addBook"
    [ ("title", VString "New Title"); ("author", VString "New Author") ]
    [ Field "title" [] [];
      Field "author" [] [ Field "name" [] [] ] ].

(** ** Reading values and the schema *)

(** The values a property read throws on. *)
Definition is_nullish (v : value) : bool :=
  match v with
  | VUndefined | VNull => true
  | _ => false
  end.

(** The entry has no [branch], or an [undefined] one. *)
Definition lacks_branch (entry : value) : bool :=
  strict_eq (prop entry "branch") VUndefined.

(** The type a field's type names, under its list and non-null wrappers. *)
Fixpoint named_type (t : gql_type) : string :=
  match t with
  | Named n => n
  | ListOf t' => named_type t'
  | NonNull t' => named_type t'
  end.

(** The scalars every GraphQL schema has without declaring them. *)
Definition builtin_scalars : list string :=
  ["Int"; "Float"; "String"; "Boolean"; "ID"].

(** The types a request can get to: the two root types, and the type of
    every field of a type it can get to. *)
Inductive reaches : string -> Prop :=
| reaches_Query : reaches "Query"
| reaches_Mutation : reaches "Mutation"
| reaches_field (typeName fieldName : string) (ty : gql_type) :
    reaches typeName ->
    field_type typeName fieldName = Some ty ->
    reaches (named_type ty).

(** The response shape of one BookNew entry under [booksNew_request]. *)
Definition BookNew_response (entry : value) : value :=
  VObject [("title", prop entry "title");
           ("author", VObject [("name", prop entry "author")])].

(** ** The requests the engine runs *)

(** The arguments the schema declares, lines 49 and 58. *)
Definition argumentDefs
  : list (string * list (string * list (string * gql_type))) :=
  [ ("Query", [ ("author", [ ("id", NonNull (Named "ID")) ]) ]);
    ("Mutation", [ ("addBook", [ ("title", Named "String");
                                 ("author", Named "String") ]) ]) ].

Definition field_arguments (typeName fieldName : string)
  : list (string * gql_type) :=
  match lookup typeName argumentDefs with
  | Some fields =>
      match lookup fieldName fields with
      | Some decls => decls
      | None => []
      end
  | None => []
  end.

(** Modelled from the spec: an argument value as a resolver receives it,
    after the engine's input coercion (section 4.2, failure semantics): a
    text for [String] and for [ID], an integer for [Int], null only where
    the type is nullable.  No argument of the schema is a list. *)
Fixpoint coerced_value (ty : gql_type) (v : value) : bool :=
  match ty with
  | NonNull t =>
      match v with
      | VNull => false
      | _ => coerced_value t v
      end
  | ListOf _ => false
  | Named n =>
      match v with
      | VNull => true
      | VString _ => String.eqb n "String" || String.eqb n "ID"
      | VNumber _ => String.eqb n "Int"
      | _ => false
      end
  end.

Fixpoint distinct (l : list string) : bool :=
  match l with
  | [] => true
  | x :: rest => negb (existsb (String.eqb x) rest) && distinct rest
  end.

(** The argument object of a field: every argument given is declared and
    coerced, no argument is given twice, every non-null argument is given. *)
Definition valid_arguments (decls : list (string * gql_type))
  (args : list (string * value)) : bool :=
  distinct (map fst args)
  && forallb
       (fun kv =>
          match lookup (fst kv) decls with
          | Some ty => coerced_value ty (snd kv)
          | None => false
          end) args
  && forallb
       (fun d =>
          match snd d with
          | NonNull _ =>
              match lookup (fst d) args with
              | Some _ => true
              | None => false
              end
          | _ => true
          end) decls.

Definition no_selection (sub : list selection) : bool :=
  match sub with
  | [] => true
  | _ :: _ => false
  end.

(** Modelled from the spec: the requests that pass the engine's validation
    (section 7) and that the traversal covers.  The field is declared on the
    type, its arguments are valid, a scalar field selects nothing and an
    object field selects at least one valid field of its type.  The same
    field is not selected twice: the traversal does not merge selections. *)
Fixpoint valid_field (typeName : string) (s : selection) : bool :=
  match s with
  | Field name args sub =>
      match field_type typeName name with
      | None => false
      | Some ty =>
          valid_arguments (field_arguments typeName name) args
          && (if is_object_type (named_type ty)
              then negb (no_selection sub)
                   && distinct (map selection_name sub)
                   && forallb (valid_field (named_type ty)) sub
              else no_selection sub)
      end
  end.

(** * Properties *)

(** ** Lookup and strict equality *)

Lemma lookup_In {A : Type} (k : string) (l : list (string * A)) (v : A) :
  lookup k l = Some v -> In (k, v) l.
Proof.
  induction l as [|[k' v'] l IH]; simpl; [discriminate|].
  destruct (String.eqb k k') eqn:E.
  - intros [= <-]. apply String.eqb_eq in E. subst. now left.
  - intro H. right. now apply IH.
Qed.

Lemma strict_eq_string (s : string) (v : value) :
  strict_eq (VString s) v = true -> v = VString s.
Proof.
  destruct v; simpl; try discriminate.
  intro H. apply String.eqb_eq in H. now subst.
Qed.

Lemma strict_eq_to_string (x : value) (b : string) :
  strict_eq x (VString b) =
  match x with VString s => String.eqb s b | _ => false end.
Proof. now destruct x. Qed.

(** ** Calls that leave the store alone *)

Create HintDb preserves.

Lemma preserves_ret {A : Type} (a : A) : preserves (ret a).
Proof. now intro st. Qed.

Lemma preserves_throw {A : Type} (e : error) : preserves (@throw A e).
Proof. now intro st. Qed.

Lemma preserves_bind {A B : Type} (m : M A) (k : A -> M B) :
  preserves m -> (forall a, preserves (k a)) -> preserves (bind m k).
Proof.
  intros Hm Hk st. unfold bind.
  specialize (Hm st). destruct (m st) as [[a|e] st']; simpl in Hm; subst.
  - apply Hk.
  - reflexivity.
Qed.

Lemma preserves_read (sel : store -> list value) : preserves (read sel).
Proof. now intro st. Qed.

Lemma preserves_get (v : value) (k : string) : preserves (get v k).
Proof. destruct v; now intro st. Qed.

Lemma preserves_if {A : Type} (b : bool) (m1 m2 : M A) :
  preserves m1 -> preserves m2 -> preserves (if b then m1 else m2).
Proof. now destruct b. Qed.

#[local] Hint Resolve preserves_ret preserves_throw preserves_bind
  preserves_read preserves_get preserves_if : preserves.

Lemma preserves_array_find (cb : value -> M bool) (items : list value) :
  (forall x, preserves (cb x)) -> preserves (array_find cb items).
Proof.
  intro Hcb. induction items as [|x rest IH]; simpl; auto with preserves.
Qed.

Lemma preserves_array_filter (cb : value -> M bool) (items : list value) :
  (forall x, preserves (cb x)) -> preserves (array_filter cb items).
Proof.
  intro Hcb. induction items as [|x rest IH]; simpl; auto 6 with preserves.
Qed.

#[local] Hint Resolve preserves_array_find preserves_array_filter : preserves.

Lemma preserves_Query_author (parent args contextValue info : value) :
  preserves (Query_author parent args contextValue info).
Proof.
  intro st. unfold Query_author.
  apply preserves_array_find. auto with preserves.
Qed.

Lemma preserves_Library_booksNew (parent : value) :
  preserves (Library_booksNew parent).
Proof.
  intro st. unfold Library_booksNew.
  apply (preserves_bind (array_filter _ (booksNew st))); auto 6 with preserves.
Qed.

Lemma preserves_BookNew_author (parent : value) :
  preserves (BookNew_author parent).
Proof. unfold BookNew_author. auto with preserves. Qed.

Lemma preserves_Mutation_addBook (title author : value) :
  preserves (Mutation_addBook title author).
Proof. now intro st. Qed.

Lemma preserves_defaultFieldResolver (fieldName : string)
  (source args contextValue info : value) :
  preserves (defaultFieldResolver fieldName source args contextValue info).
Proof. destruct source; now intro st. Qed.

(** Every entry of the table leaves the store alone. *)
Lemma preserves_table (typeName fieldName : string)
  (fields : list (string * resolver)) (r : resolver) :
  lookup typeName resolvers = Some fields ->
  lookup fieldName fields = Some r ->
  forall parent args contextValue info,
    preserves (r parent args contextValue info).
Proof.
  intros HT Hf parent args contextValue info.
  apply lookup_In in HT. apply lookup_In in Hf.
  simpl in HT.
  repeat (destruct HT as [HT|HT]; [injection HT as <- <-; simpl in Hf|]);
    try contradiction;
    repeat (destruct Hf as [Hf|Hf]; [injection Hf as <- <-|]);
    try contradiction;
    first [ apply preserves_Query_author
          | apply preserves_Library_booksNew
          | apply preserves_BookNew_author
          | apply preserves_Mutation_addBook
          | unfold Query_books, Query_authors, Query_libraries,
              Query_numberSix, Query_numberSeven; auto with preserves ].
Qed.

Lemma preserves_resolve_field (typeName fieldName : string)
  (parent args contextValue info : value) :
  preserves (resolve_field typeName fieldName parent args contextValue info).
Proof.
  unfold resolve_field.
  destruct (lookup typeName resolvers) as [fields|] eqn:HT;
    [destruct (lookup fieldName fields) as [r|] eqn:Hf|].
  - eapply preserves_table; eassumption.
  - apply preserves_defaultFieldResolver.
  - apply preserves_defaultFieldResolver.
Qed.

(** A whole traversal leaves the store alone. *)
Lemma selection_nested_ind (P : selection -> Prop) :
  (forall name args sub, Forall P sub -> P (Field name args sub)) ->
  forall s, P s.
Proof.
  intro H. fix IH 1. intros [name args sub]. apply H.
  induction sub as [|s sub IHsub]; constructor; [apply IH | exact IHsub].
Qed.

Lemma preserves_mapM {A B : Type} (f : A -> M B) (l : list A) :
  (forall x, preserves (f x)) -> preserves (mapM f l).
Proof.
  intro Hf. induction l as [|x rest IH]; simpl; auto 6 with preserves.
Qed.

Lemma preserves_execute_field (contextValue info : value) (s : selection) :
  forall typeName source,
    preserves (execute_field contextValue info typeName s source).
Proof.
  induction s as [name args sub IHsub] using selection_nested_ind.
  intros typeName source. simpl.
  destruct (field_type typeName name) as [ty|]; [|apply preserves_throw].
  apply preserves_bind; [apply preserves_resolve_field|].
  intro v. revert v.
  induction ty as [n|t IHt|t IHt]; intro v.
  - destruct v; try apply preserves_ret;
      (destruct (is_object_type n); [|apply preserves_ret]);
      (apply preserves_bind; [|intro; apply preserves_ret]);
      (induction IHsub as [|s' sub' Hs' _ IH']; [apply preserves_ret|]);
      (apply preserves_bind; [apply Hs'|]); intro;
      (apply preserves_bind; [apply IH'|]); intro; apply preserves_ret.
  - destruct v; try apply preserves_ret; try apply preserves_throw.
    apply preserves_bind; [|intro; apply preserves_ret].
    apply preserves_mapM. exact IHt.
  - apply preserves_bind; [apply IHt|].
    intros []; try apply preserves_ret. apply preserves_throw.
Qed.

(** The store of a running server is the seed store. *)
Lemma reachable_seed (st : store) : reachable st -> st = seed_store.
Proof.
  induction 1 as [|st st' _ IH Hstep]; [reflexivity|].
  destruct Hstep. rewrite preserves_resolve_field. exact IH.
Qed.

(** ** [find] and [filter] with a callback that only reads *)

Lemma array_find_pure (p : value -> bool) (cb : value -> M bool)
  (items : list value) (st : store) :
  (forall x, In x items -> cb x st = (Ok (p x), st)) ->
  array_find cb items st =
  (Ok (match find p items with Some x => x | None => VUndefined end), st).
Proof.
  induction items as [|x rest IH]; intro Hcb; simpl; [reflexivity|].
  unfold bind. rewrite (Hcb x (or_introl eq_refl)).
  destruct (p x); [reflexivity|].
  apply IH. intros y Hy. apply Hcb. now right.
Qed.

Lemma array_filter_pure (p : value -> bool) (cb : value -> M bool)
  (items : list value) (st : store) :
  (forall x, In x items -> cb x st = (Ok (p x), st)) ->
  array_filter cb items st = (Ok (filter p items), st).
Proof.
  induction items as [|x rest IH]; intro Hcb; simpl; [reflexivity|].
  unfold bind at 1. rewrite (Hcb x (or_introl eq_refl)).
  unfold bind. rewrite IH by (intros y Hy; apply Hcb; now right).
  now destruct (p x).
Qed.

Lemma filter_nothing {A : Type} (p : A -> bool) (l : list A) :
  (forall x, In x l -> p x = false) -> filter p l = [].
Proof.
  induction l as [|x l IH]; intro H; simpl; [reflexivity|].
  rewrite (H x (or_introl eq_refl)). apply IH. intros y Hy. apply H. now right.
Qed.

Lemma forallb_is_object (items : list value) (x : value) :
  forallb is_object items = true -> In x items ->
  exists props, x = VObject props.
Proof.
  intros Hall Hx. rewrite forallb_forall in Hall. specialize (Hall x Hx).
  destruct x; try discriminate. now eexists.
Qed.

(** [booksNew.filter(...)] keeps the entries of the parent's branch, on a
    collection of objects. *)
Lemma Library_booksNew_filter (props : list (string * value)) (b : string)
  (st : store) :
  forallb is_object (booksNew st) = true ->
  lookup "branch" props = Some (VString b) ->
  Library_booksNew (VObject props) st =
  (Ok (VArray (filter (has_branch b) (booksNew st))), st).
Proof.
  intros Hobj Hb. unfold Library_booksNew, bind.
  rewrite (array_filter_pure (has_branch b)); [reflexivity|].
  intros x Hx. destruct (forallb_is_object _ _ Hobj Hx) as [xp ->].
  unfold get, bind, ret, own_property, has_branch, prop, own_property.
  rewrite Hb. now rewrite strict_eq_to_string.
Qed.

Lemma Mutation_addBook_appends (title author : value) (st : store) :
  Mutation_addBook title author st =
  (Ok (VArray (books st ++ [VObject [("title", title); ("author", author)]])), st).
Proof. reflexivity. Qed.

(** ** The claims *)

(** Claim C1, evaluated on the code.  The engine calls the resolver of
    [addBook(title: "New Title", author: "New Author")] with the root value
    and the argument object; the function binds its parameter [title] to the
    first and [author] to the second.  The appended entry is then
    [{title: undefined, author: {title: "New Title", author: "New Author"}}],
    not [{title: "New Title", author: "New Author"}], and the response shows
    it as [{title: null, author: {name: null}}]. *)
Theorem addBook_binds_parent_and_args (contextValue info : value) :
  let args :=
    VObject [("title", VString "New Title"); ("author", VString "New Author")] in
  resolve_field "Mutation" "addBook" VUndefined args contextValue info seed_store =
    (Ok (VArray (seed_books ++
                 [VObject [("title", VUndefined); ("author", args)]])),
     seed_store)
  /\ resolve_field "Mutation" "addBook" VUndefined args contextValue info seed_store <>
    (Ok (VArray (seed_books ++
                 [VObject [("title", VString "New Title");
                           ("author", VString "New Author")]])),
     seed_store)
  /\ execute_mutation contextValue info addBook_request seed_store =
    (Ok (VArray
           [ VObject [("title", VString "The Awakening");
                      ("author", VObject [("name", VString "Kate Chopin")])];
             VObject [("title", VString "City of Glass");
                      ("author", VObject [("name", VString "Paul Auster")])];
             VObject [("title", VNull);
                      ("author", VObject [("name", VNull)])] ]),
     seed_store).
Proof.
  split; [reflexivity|]. split; [|reflexivity].
  vm_compute. discriminate.
Qed.

(** Claim C2.  Whatever [Mutation.addBook] is called with, the store is the
    same afterwards: [Query.books] called next returns the two seeded
    entries, as it does without the mutation, and the appended entry is in
    the mutation's return value only.  The same holds for the whole request
    that the engine runs for the mutation. *)
Theorem addBook_not_persisted (title author : value) (st : store) :
  reachable st ->
  snd (Mutation_addBook title author st) = st
  /\ (let* _ := Mutation_addBook title author in Query_books) st =
     (Ok (VArray
            [ VObject [("title", VString "The Awakening");
                       ("author", VObject [("name", VString "Kate Chopin")])];
              VObject [("title", VString "City of Glass");
                       ("author", VObject [("name", VString "Paul Auster")])] ]),
      st)
  /\ (let* _ := Mutation_addBook title author in Query_books) st = Query_books st
  /\ fst (Mutation_addBook title author st) =
     Ok (VArray
           [ VObject [("title", VString "The Awakening");
                      ("author", VObject [("name", VString "Kate Chopin")])];
             VObject [("title", VString "City of Glass");
                      ("author", VObject [("name", VString "Paul Auster")])];
             VObject [("title", title); ("author", author)] ])
  /\ forall contextValue info args sub,
       snd (execute_mutation contextValue info (Field "addBook" args sub) st) = st.
Proof.
  intro Hst. rewrite (reachable_seed st Hst).
  repeat (split; [reflexivity|]).
  intros contextValue info args sub. apply preserves_execute_field.
Qed.

Lemma addBook_not_persisted_witness :
  reachable seed_store
  /\ (let* _ := Mutation_addBook (VString "New Title") (VString "New Author") in
      Query_books) seed_store = Query_books seed_store.
Proof.
  split; [exact reach_seed|].
  apply (addBook_not_persisted (VString "New Title") (VString "New Author")
           seed_store reach_seed).
Defined.

(** A valid request of [Query.author] carries a text id. *)
Lemma valid_author_request_id (props : list (string * value))
  (sub : list selection) :
  valid_field "Query" (Field "author" props sub) = true ->
  exists s, own_property props "id" = VString s.
Proof.
  intro Hvalid. cbn [valid_field] in Hvalid.
  change (field_type "Query" "author") with (Some (Named "Author")) in Hvalid.
  change (field_arguments "Query" "author")
    with [("id", NonNull (Named "ID"))] in Hvalid.
  apply andb_true_iff in Hvalid. destruct Hvalid as [Hargs _].
  unfold valid_arguments in Hargs.
  apply andb_true_iff in Hargs. destruct Hargs as [Hargs Hrequired].
  apply andb_true_iff in Hargs. destruct Hargs as [_ Hcoerced].
  cbn [forallb snd fst] in Hrequired.
  unfold own_property.
  destruct (lookup "id" props) as [v|] eqn:Hid; [|discriminate].
  apply lookup_In in Hid.
  rewrite forallb_forall in Hcoerced. specialize (Hcoerced _ Hid).
  cbn in Hcoerced.
  destruct v; try discriminate. now eexists.
Qed.

Lemma addBook_request_valid : valid_field "Mutation" addBook_request = true.
Proof. reflexivity. Qed.

Lemma booksNew_request_valid : valid_field "Library" booksNew_request = true.
Proof. reflexivity. Qed.

(** Claim C3.  On the seeded authors, for every id argument: when an entry
    has the id, [Query.author] returns it, it is the first such entry and no
    other entry has the id; when no entry has the id, the call does not
    throw, its result is absent, and for every valid request of the field,
    whose id the engine has coerced to a text, the engine resolves the field
    to null. *)
Theorem Query_author_first_match_or_null
  (parent : value) (props : list (string * value))
  (contextValue info : value) (st : store) :
  reachable st ->
  let id := own_property props "id" in
  let result := Query_author parent (VObject props) contextValue info st in
  (forall a, In a seed_authors -> has_id id a = true ->
     result = (Ok a, st)
     /\ find (has_id id) seed_authors = Some a
     /\ forall b, In b seed_authors -> has_id id b = true -> b = a)
  /\ ((forall a, In a seed_authors -> has_id id a = false) ->
      result = (Ok VUndefined, st)
      /\ forall sub,
           valid_field "Query" (Field "author" props sub) = true ->
           (exists s, own_property props "id" = VString s)
           /\ execute_query contextValue info (Field "author" props sub) st =
              (Ok VNull, st)).
Proof.
  intro Hst. apply reachable_seed in Hst. subst st. intros id result.
  assert (Hres : forall p,
            Query_author p (VObject props) contextValue info seed_store =
            (Ok (match find (has_id id) seed_authors with
                 | Some a => a
                 | None => VUndefined
                 end), seed_store)).
  { intro p. unfold Query_author. apply array_find_pure.
    intros x [<-|[<-|[]]]; reflexivity. }
  assert (Huniq : forall a b, In a seed_authors -> In b seed_authors ->
            has_id id a = true -> has_id id b = true -> a = b).
  { intros a b Ha Hb Hida Hidb. unfold has_id in *. simpl in Ha, Hb.
    destruct Ha as [<-|[<-|[]]]; destruct Hb as [<-|[<-|[]]];
      try reflexivity;
      cbn [prop own_property lookup String.eqb Ascii.eqb Bool.eqb] in Hida, Hidb;
      apply strict_eq_string in Hida; apply strict_eq_string in Hidb;
      congruence. }
  split.
  - intros a Ha Hid.
    assert (Hfind : find (has_id id) seed_authors = Some a).
    { destruct (find (has_id id) seed_authors) as [a'|] eqn:E.
      - apply find_some in E. destruct E as [Hin' Hid'].
        f_equal. now apply Huniq.
      - now rewrite (find_none _ _ E a Ha) in Hid. }
    split; [|split].
    + unfold result. now rewrite Hres, Hfind.
    + exact Hfind.
    + intros b Hb Hidb. now apply Huniq.
  - intro Hnone.
    assert (Hfind : find (has_id id) seed_authors = None).
    { simpl. rewrite !Hnone by (simpl; auto). reflexivity. }
    split; [unfold result; now rewrite Hres, Hfind|].
    intros sub Hvalid.
    split; [exact (valid_author_request_id props sub Hvalid)|].
    unfold execute_query. simpl.
    change (resolve_field "Query" "author" VUndefined (VObject props)
              contextValue info)
      with (Query_author VUndefined (VObject props) contextValue info).
    unfold bind. rewrite Hres, Hfind. reflexivity.
Qed.

Lemma Query_author_first_match_or_null_witness :
  reachable seed_store
  /\ Query_author VUndefined (VObject [("id", VString "2")]) VNull VNull
       seed_store =
     (Ok (VObject [("id", VString "2");
                   ("name", VString "Paul Auster");
                   ("books", VArray [VObject [("title", VString "City of Glass")]])]),
      seed_store)
  /\ valid_field "Query"
       (Field "author" [("id", VString "3")] [Field "name" [] []]) = true
  /\ execute_query VNull VNull
       (Field "author" [("id", VString "3")] [Field "name" [] []]) seed_store =
     (Ok VNull, seed_store).
Proof.
  split; [exact reach_seed|]. split; [|split; [reflexivity|]].
  - apply (Query_author_first_match_or_null VUndefined [("id", VString "2")]
             VNull VNull seed_store reach_seed).
    + simpl. auto.
    + reflexivity.
  - destruct (Query_author_first_match_or_null VUndefined [("id", VString "3")]
                VNull VNull seed_store reach_seed) as [_ Habsent].
    destruct Habsent as [_ Hnull];
      [intros a [<-|[<-|[]]]; reflexivity|].
    apply (Hnull [Field "name" [] []] eq_refl).
Defined.

(** Claim C4.  For a Library parent, an object whose branch is a text, and a
    booksNew collection of objects, [Library.booksNew] returns an array of
    exactly the entries whose branch is the parent's, in the order of the
    collection; when no entry has that branch the result is the empty array,
    not an absent value. *)
Theorem Library_booksNew_entries_of_branch
  (props : list (string * value)) (b : string) (st : store) :
  forallb is_object (booksNew st) = true ->
  lookup "branch" props = Some (VString b) ->
  Library_booksNew (VObject props) st =
    (Ok (VArray (filter (has_branch b) (booksNew st))), st)
  /\ ((forall e, In e (booksNew st) -> has_branch b e = false) ->
      Library_booksNew (VObject props) st = (Ok (VArray []), st))
  /\ fst (Library_booksNew (VObject props) st) <> Ok VUndefined
  /\ fst (Library_booksNew (VObject props) st) <> Ok VNull.
Proof.
  intros Hobj Hb.
  rewrite (Library_booksNew_filter props b st Hobj Hb).
  repeat split; try discriminate.
  intro Hnone. now rewrite (filter_nothing _ _ Hnone).
Qed.

Lemma Library_booksNew_entries_of_branch_witness :
  forallb is_object (booksNew seed_store) = true
  /\ lookup "branch" [("branch", VString "uptown")] = Some (VString "uptown")
  /\ Library_booksNew (VObject [("branch", VString "uptown")]) seed_store =
     (Ok (VArray []), seed_store).
Proof.
  split; [reflexivity|]. split; [reflexivity|].
  apply (Library_booksNew_entries_of_branch [("branch", VString "uptown")]
           "uptown" seed_store eq_refl eq_refl).
  intros e [<-|[<-|[]]]; reflexivity.
Defined.

(** Claim C5.  On the seeded data the request for the BookNew entries of a
    library, each with its title and its author's name, yields
    [[{title: "City of Glass", author: {name: "Paul Auster"}}]] for
    "downtown" and [[{title: "The Awakening", author: {name: "Kate Chopin"}}]]
    for "riverside"; [BookNew.author] builds [{name: parent.author}] from
    the entry. *)
Theorem booksNew_request_on_seeded_libraries
  (contextValue info : value) (st : store) :
  reachable st ->
  execute_field contextValue info "Library" booksNew_request
      (VObject [("branch", VString "downtown")]) st =
    (Ok (VArray
           [ VObject [("title", VString "City of Glass");
                      ("author", VObject [("name", VString "Paul Auster")])] ]),
     st)
  /\ execute_field contextValue info "Library" booksNew_request
      (VObject [("branch", VString "riverside")]) st =
    (Ok (VArray
           [ VObject [("title", VString "The Awakening");
                      ("author", VObject [("name", VString "Kate Chopin")])] ]),
     st)
  /\ forall entry,
       BookNew_author (VObject entry) st =
       (Ok (VObject [("name", own_property entry "author")]), st).
Proof.
  intro Hst. rewrite (reachable_seed st Hst).
  split; [reflexivity|]. split; [reflexivity|].
  intro entry. reflexivity.
Qed.

Lemma booksNew_request_on_seeded_libraries_witness :
  reachable seed_store
  /\ execute_field VNull VNull "Library" booksNew_request
       (VObject [("branch", VString "downtown")]) seed_store =
     (Ok (VArray
            [ VObject [("title", VString "City of Glass");
                       ("author", VObject [("name", VString "Paul Auster")])] ]),
      seed_store).
Proof.
  split; [exact reach_seed|].
  apply (booksNew_request_on_seeded_libraries VNull VNull seed_store reach_seed).
Defined.

(** Claim C6.  In every store a running server can be in, [Query.books]
    returns the two seeded entries in seed order, each with its nested
    author object, whatever the engine passes to it. *)
Theorem Query_books_returns_seeded_books
  (parent args contextValue info : value) (st : store) :
  reachable st ->
  resolve_field "Query" "books" parent args contextValue info st =
    (Ok (VArray
           [ VObject [("title", VString "The Awakening");
                      ("author", VObject [("name", VString "Kate Chopin")])];
             VObject [("title", VString "City of Glass");
                      ("author", VObject [("name", VString "Paul Auster")])] ]),
     st).
Proof.
  intro Hst. rewrite (reachable_seed st Hst). reflexivity.
Qed.

Lemma Query_books_returns_seeded_books_witness :
  reachable seed_store
  /\ fst (resolve_field "Query" "books" VUndefined (VObject []) VNull VNull
            seed_store) = Ok (VArray seed_books).
Proof.
  split; [exact reach_seed|].
  rewrite (Query_books_returns_seeded_books VUndefined (VObject []) VNull VNull
             seed_store reach_seed).
  reflexivity.
Defined.

(** Claim C7.  In every store a running server can be in, [Query.libraries]
    returns the two seeded entries in seed order,
    [[{branch: "downtown"}, {branch: "riverside"}]]. *)
Theorem Query_libraries_returns_seeded_libraries
  (parent args contextValue info : value) (st : store) :
  reachable st ->
  resolve_field "Query" "libraries" parent args contextValue info st =
    (Ok (VArray [ VObject [("branch", VString "downtown")];
                  VObject [("branch", VString "riverside")] ]),
     st).
Proof.
  intro Hst. rewrite (reachable_seed st Hst). reflexivity.
Qed.

Lemma Query_libraries_returns_seeded_libraries_witness :
  reachable seed_store
  /\ fst (resolve_field "Query" "libraries" VUndefined (VObject []) VNull VNull
            seed_store) = Ok (VArray seed_libraries).
Proof.
  split; [exact reach_seed|].
  rewrite (Query_libraries_returns_seeded_libraries VUndefined (VObject [])
             VNull VNull seed_store reach_seed).
  reflexivity.
Defined.

(** Claim C8.  [Query.numberSix] returns 6 and [Query.numberSeven] returns 7
    in every store and for every argument of the call, so after any earlier
    requests or mutations. *)
Theorem numberSix_is_6_and_numberSeven_is_7
  (parent args contextValue info : value) (st : store) :
  resolve_field "Query" "numberSix" parent args contextValue info st =
    (Ok (VNumber 6), st)
  /\ resolve_field "Query" "numberSeven" parent args contextValue info st =
    (Ok (VNumber 7), st).
Proof. split; reflexivity. Qed.

(** Claim C9.  Every resolver of the table, called with any arguments in any
    store, leaves [books], [authors], [libraries] and [booksNew] as they
    were. *)
Theorem resolvers_leave_collections_unchanged
  (typeName fieldName : string) (fields : list (string * resolver))
  (r : resolver) (parent args contextValue info : value) (st : store) :
  lookup typeName resolvers = Some fields ->
  lookup fieldName fields = Some r ->
  let st' := snd (r parent args contextValue info st) in
  books st' = books st
  /\ authors st' = authors st
  /\ libraries st' = libraries st
  /\ booksNew st' = booksNew st.
Proof.
  intros HT Hf st'. subst st'.
  rewrite (preserves_table typeName fieldName fields r HT Hf
             parent args contextValue info st).
  repeat split.
Qed.

Lemma resolvers_leave_collections_unchanged_witness :
  lookup "Mutation" resolvers =
    Some [("addBook", fun title author _ _ => Mutation_addBook title author)]
  /\ books (snd (Mutation_addBook VUndefined
                   (VObject [("title", VString "New Title");
                             ("author", VString "New Author")]) seed_store)) =
     seed_books.
Proof.
  split; [reflexivity|].
  apply (resolvers_leave_collections_unchanged "Mutation" "addBook"
           [("addBook", fun title author _ _ => Mutation_addBook title author)]
           (fun title author _ _ => Mutation_addBook title author)
           VUndefined
           (VObject [("title", VString "New Title");
                     ("author", VString "New Author")])
           VNull VNull seed_store eq_refl eq_refl).
Defined.

(** Claim C10.  Every seeded BookNew entry has the branch of exactly one
    seeded library; the results of [Library.booksNew] over the seeded
    libraries, put together, are the booksNew collection up to order, with no
    entry twice, and each entry is in the result of exactly one library. *)
Theorem booksNew_partitioned_by_seeded_libraries :
  (forall e, In e seed_booksNew ->
     exists l, In l seed_libraries
       /\ prop e "branch" = prop l "branch"
       /\ forall l', In l' seed_libraries ->
            prop e "branch" = prop l' "branch" -> l' = l)
  /\ Permutation (concat (map booksNew_under seed_libraries)) seed_booksNew
  /\ NoDup (concat (map booksNew_under seed_libraries))
  /\ (forall e, In e seed_booksNew ->
        exists l, In l seed_libraries
          /\ In e (booksNew_under l)
          /\ forall l', In l' seed_libraries -> In e (booksNew_under l') ->
               l' = l).
Proof.
  split; [|split; [|split]].
  - intros e [<-|[<-|[]]].
    + exists (VObject [("branch", VString "riverside")]).
      split; [simpl; auto|]. split; [reflexivity|].
      intros l' [<-|[<-|[]]]; [discriminate|reflexivity].
    + exists (VObject [("branch", VString "downtown")]).
      split; [simpl; auto|]. split; [reflexivity|].
      intros l' [<-|[<-|[]]]; [reflexivity|discriminate].
  - vm_compute. apply perm_swap.
  - vm_compute. repeat constructor; simpl; intuition discriminate.
  - intros e [<-|[<-|[]]].
    + exists (VObject [("branch", VString "riverside")]).
      split; [simpl; auto|]. split; [vm_compute; auto|].
      intros l' [<-|[<-|[]]]; vm_compute; intuition discriminate.
    + exists (VObject [("branch", VString "downtown")]).
      split; [simpl; auto|]. split; [vm_compute; auto|].
      intros l' [<-|[<-|[]]]; vm_compute; intuition discriminate.
Qed.

(** * Further properties of the resolvers and of the schema *)

(** ** Reads and callbacks *)

Lemma get_not_nullish (v : value) (k : string) (st : store) :
  is_nullish v = false -> get v k st = (Ok (prop v k), st).
Proof. destruct v; simpl; intro H; try discriminate; reflexivity. Qed.

Lemma get_nullish (v : value) (k : string) (st : store) :
  is_nullish v = true -> get v k st = (Throw TypeError, st).
Proof. destruct v; simpl; intro H; try discriminate; reflexivity. Qed.

Lemma has_id_not_nullish (id : string) (x : value) :
  has_id (VString id) x = true -> is_nullish x = false.
Proof. destruct x; simpl; try reflexivity; discriminate. Qed.

Lemma array_find_app_hit (cb : value -> M bool) (pre post : list value)
  (a : value) (st : store) :
  (forall x, In x pre -> cb x st = (Ok false, st)) ->
  cb a st = (Ok true, st) ->
  array_find cb (pre ++ a :: post) st = (Ok a, st).
Proof.
  intros Hpre Ha. induction pre as [|x pre IH]; simpl; unfold bind.
  - now rewrite Ha.
  - rewrite (Hpre x (or_introl eq_refl)). apply IH.
    intros y Hy. apply Hpre. now right.
Qed.

Lemma array_find_all_miss (cb : value -> M bool) (items : list value)
  (st : store) :
  (forall x, In x items -> cb x st = (Ok false, st)) ->
  array_find cb items st = (Ok VUndefined, st).
Proof.
  intro Hall. induction items as [|x rest IH]; simpl; [reflexivity|].
  unfold bind. rewrite (Hall x (or_introl eq_refl)). apply IH.
  intros y Hy. apply Hall. now right.
Qed.

Lemma array_find_app_throw (cb : value -> M bool) (pre post : list value)
  (a : value) (e : error) (st : store) :
  (forall x, In x pre -> cb x st = (Ok false, st)) ->
  cb a st = (Throw e, st) ->
  array_find cb (pre ++ a :: post) st = (Throw e, st).
Proof.
  intros Hpre Ha. induction pre as [|x pre IH]; simpl; unfold bind.
  - now rewrite Ha.
  - rewrite (Hpre x (or_introl eq_refl)). apply IH.
    intros y Hy. apply Hpre. now right.
Qed.

Lemma array_filter_app_throw (cb : value -> M bool) (pre post : list value)
  (a : value) (e : error) (st : store) :
  (forall x, In x pre -> exists b, cb x st = (Ok b, st)) ->
  cb a st = (Throw e, st) ->
  array_filter cb (pre ++ a :: post) st = (Throw e, st).
Proof.
  intros Hpre Ha. induction pre as [|x pre IH]; simpl; unfold bind.
  - now rewrite Ha.
  - destruct (Hpre x (or_introl eq_refl)) as [b Hb]. rewrite Hb.
    fold (@bind (list value) (list value)).
    unfold bind. rewrite IH; [reflexivity|].
    intros y Hy. apply Hpre. now right.
Qed.

(** The callback of [Query.author] on an entry that can be read, for an
    argument object. *)
Lemma Query_author_callback (props : list (string * value)) (x : value)
  (st : store) :
  is_nullish x = false ->
  (let* a := get x "id" in
   let* b := get (VObject props) "id" in
   ret (strict_eq a b)) st =
  (Ok (has_id (own_property props "id") x), st).
Proof.
  intro Hx. unfold bind. rewrite (get_not_nullish x "id" st Hx). reflexivity.
Qed.

(** ** [Query.author] on any authors collection *)

(** Extra X1.  Whatever the authors collection holds, when the argument id
    is a text and some entry has it, [Query.author] returns the first such
    entry, provided the entries before it can be read; what comes after it is
    not looked at. *)
Theorem Query_author_returns_first_entry_with_id
  (parent : value) (props : list (string * value)) (s : string)
  (contextValue info : value) (st : store) (pre post : list value) (a : value) :
  lookup "id" props = Some (VString s) ->
  authors st = (pre ++ a :: post)%list ->
  (forall x, In x pre -> is_nullish x = false /\ has_id (VString s) x = false) ->
  has_id (VString s) a = true ->
  Query_author parent (VObject props) contextValue info st = (Ok a, st).
Proof.
  intros Hid Hsplit Hpre Ha. unfold Query_author. rewrite Hsplit.
  assert (Hown : own_property props "id" = VString s)
    by (unfold own_property; now rewrite Hid).
  apply array_find_app_hit.
  - intros x Hx. destruct (Hpre x Hx) as [Hnn Hmiss].
    rewrite (Query_author_callback props x st Hnn), Hown. now rewrite Hmiss.
  - rewrite (Query_author_callback props a st (has_id_not_nullish s a Ha)), Hown.
    now rewrite Ha.
Qed.

Lemma Query_author_returns_first_entry_with_id_witness :
  Query_author VUndefined (VObject [("id", VString "2")]) VNull VNull
    {| books := []; libraries := []; booksNew := [];
       authors := [ VObject [("id", VString "1")];
                    VObject [("id", VString "2"); ("name", VString "first")];
                    VObject [("id", VString "2"); ("name", VString "second")];
                    VNull ] |} =
  (Ok (VObject [("id", VString "2"); ("name", VString "first")]),
   {| books := []; libraries := []; booksNew := [];
      authors := [ VObject [("id", VString "1")];
                   VObject [("id", VString "2"); ("name", VString "first")];
                   VObject [("id", VString "2"); ("name", VString "second")];
                   VNull ] |}).
Proof.
  apply (Query_author_returns_first_entry_with_id VUndefined
           [("id", VString "2")] "2" VNull VNull _
           [ VObject [("id", VString "1")] ]
           [ VObject [("id", VString "2"); ("name", VString "second")]; VNull ]).
  - reflexivity.
  - reflexivity.
  - intros x [<-|[]]. split; reflexivity.
  - reflexivity.
Defined.

(** Extra X2.  When the argument id is a text, every entry of the authors
    collection can be read and none has the id, [Query.author] returns
    [undefined] and does not throw; so it does on an empty collection. *)
Theorem Query_author_absent_when_no_entry_has_id
  (parent : value) (props : list (string * value)) (s : string)
  (contextValue info : value) (st : store) :
  lookup "id" props = Some (VString s) ->
  (forall x, In x (authors st) ->
     is_nullish x = false /\ has_id (VString s) x = false) ->
  Query_author parent (VObject props) contextValue info st = (Ok VUndefined, st).
Proof.
  intros Hid Hall. unfold Query_author.
  assert (Hown : own_property props "id" = VString s)
    by (unfold own_property; now rewrite Hid).
  apply array_find_all_miss.
  intros x Hx. destruct (Hall x Hx) as [Hnn Hmiss].
  rewrite (Query_author_callback props x st Hnn), Hown. now rewrite Hmiss.
Qed.

Lemma Query_author_absent_when_no_entry_has_id_witness :
  Query_author VUndefined (VObject [("id", VString "3")]) VNull VNull seed_store =
  (Ok VUndefined, seed_store).
Proof.
  apply (Query_author_absent_when_no_entry_has_id VUndefined
           [("id", VString "3")] "3" VNull VNull seed_store).
  - reflexivity.
  - intros x [<-|[<-|[]]]; split; reflexivity.
Defined.

(** Extra X3.  When the authors collection holds [undefined] or [null] and no
    entry before it has the argument id, [Query.author] throws a TypeError:
    the callback reads [item.id] off the hole. *)
Theorem Query_author_throws_on_hole_before_match
  (parent : value) (props : list (string * value)) (s : string)
  (contextValue info : value) (st : store) (pre post : list value) (x : value) :
  lookup "id" props = Some (VString s) ->
  authors st = (pre ++ x :: post)%list ->
  (forall y, In y pre -> is_nullish y = false /\ has_id (VString s) y = false) ->
  is_nullish x = true ->
  Query_author parent (VObject props) contextValue info st =
  (Throw TypeError, st).
Proof.
  intros Hid Hsplit Hpre Hx. unfold Query_author. rewrite Hsplit.
  assert (Hown : own_property props "id" = VString s)
    by (unfold own_property; now rewrite Hid).
  apply array_find_app_throw.
  - intros y Hy. destruct (Hpre y Hy) as [Hnn Hmiss].
    rewrite (Query_author_callback props y st Hnn), Hown. now rewrite Hmiss.
  - unfold bind. now rewrite (get_nullish x "id" st Hx).
Qed.

Lemma Query_author_throws_on_hole_before_match_witness :
  Query_author VUndefined (VObject [("id", VString "2")]) VNull VNull
    {| books := []; libraries := []; booksNew := [];
       authors := [ VObject [("id", VString "1")]; VNull;
                    VObject [("id", VString "2")] ] |} =
  (Throw TypeError,
   {| books := []; libraries := []; booksNew := [];
      authors := [ VObject [("id", VString "1")]; VNull;
                   VObject [("id", VString "2")] ] |}).
Proof.
  apply (Query_author_throws_on_hole_before_match VUndefined
           [("id", VString "2")] "2" VNull VNull _
           [ VObject [("id", VString "1")] ]
           [ VObject [("id", VString "2")] ] VNull).
  - reflexivity.
  - reflexivity.
  - intros y [<-|[]]. split; reflexivity.
  - reflexivity.
Defined.

(** Extra X4.  Looking an author up by its own id gives that author back:
    when every entry of the authors collection has a text id and the ids are
    pairwise distinct, [Query.author] called with the id of an entry returns
    that entry. *)
Theorem Query_author_of_listed_author
  (parent : value) (props : list (string * value))
  (contextValue info : value) (st : store) (a : value) :
  (forall x, In x (authors st) -> exists s, prop x "id" = VString s) ->
  NoDup (map (fun x => prop x "id") (authors st)) ->
  In a (authors st) ->
  lookup "id" props = Some (prop a "id") ->
  Query_author parent (VObject props) contextValue info st = (Ok a, st).
Proof.
  intros Htext Hnodup Ha Hid.
  destruct (Htext a Ha) as [s Hs]. rewrite Hs in Hid.
  destruct (in_split a (authors st) Ha) as [pre [post Hsplit]].
  assert (Hown : own_property props "id" = VString s)
    by (unfold own_property; now rewrite Hid).
  assert (Hhit : has_id (VString s) a = true)
    by (unfold has_id; rewrite Hs; simpl; apply String.eqb_refl).
  unfold Query_author. rewrite Hsplit. apply array_find_app_hit.
  - intros x Hx.
    assert (Hin : In x (authors st))
      by (rewrite Hsplit; apply in_or_app; now left).
    destruct (Htext x Hin) as [sx Hsx].
    assert (Hnn : is_nullish x = false)
      by (destruct x; try reflexivity; discriminate).
    rewrite (Query_author_callback props x st Hnn), Hown.
    unfold has_id. rewrite Hsx. simpl.
    replace (String.eqb sx s) with false; [reflexivity|].
    symmetry. apply String.eqb_neq. intros ->.
    rewrite Hsplit, map_app in Hnodup. simpl in Hnodup.
    apply NoDup_remove_2 in Hnodup. apply Hnodup.
    apply in_or_app. left. rewrite Hs, <- Hsx.
    exact (in_map (fun y => prop y "id") pre x Hx).
  - rewrite (Query_author_callback props a st (has_id_not_nullish s a Hhit)), Hown.
    now rewrite Hhit.
Qed.

Lemma Query_author_of_listed_author_witness :
  Query_author VUndefined (VObject [("id", VString "2")]) VNull VNull seed_store =
  (Ok (VObject [("id", VString "2");
                ("name", VString "Paul Auster");
                ("books", VArray [VObject [("title", VString "City of Glass")]])]),
   seed_store).
Proof.
  apply (Query_author_of_listed_author VUndefined [("id", VString "2")]
           VNull VNull seed_store).
  - intros x [<-|[<-|[]]]; eexists; reflexivity.
  - repeat constructor; simpl; intuition discriminate.
  - simpl. auto.
  - reflexivity.
Defined.

(** Extra X5.  In every store a running server can be in, [Query.authors]
    returns the two seeded authors in seed order, each with its id, its name
    and its books, whatever the engine passes to it. *)
Theorem Query_authors_returns_seeded_authors
  (parent args contextValue info : value) (st : store) :
  reachable st ->
  resolve_field "Query" "authors" parent args contextValue info st =
    (Ok (VArray
           [ VObject [("id", VString "1");
                      ("name", VString "Kate Chopin");
                      ("books",
                       VArray [VObject [("title", VString "The Awakening")]])];
             VObject [("id", VString "2");
                      ("name", VString "Paul Auster");
                      ("books",
                       VArray [VObject [("title", VString "City of Glass")]])] ]),
     st).
Proof.
  intro Hst. rewrite (reachable_seed st Hst). reflexivity.
Qed.

Lemma Query_authors_returns_seeded_authors_witness :
  reachable seed_store
  /\ fst (resolve_field "Query" "authors" VUndefined (VObject []) VNull VNull
            seed_store) = Ok (VArray seed_authors).
Proof.
  split; [exact reach_seed|].
  rewrite (Query_authors_returns_seeded_authors VUndefined (VObject [])
             VNull VNull seed_store reach_seed).
  reflexivity.
Defined.

(** ** [Library.booksNew] on any booksNew collection *)

(** The callback of [Library.booksNew] on an entry that can be read, for a
    parent that can be read. *)
Lemma Library_booksNew_callback (parent x : value) (st : store) :
  is_nullish x = false ->
  is_nullish parent = false ->
  (let* a := get x "branch" in
   let* b := get parent "branch" in
   ret (strict_eq a b)) st =
  (Ok (strict_eq (prop x "branch") (prop parent "branch")), st).
Proof.
  intros Hx Hp. unfold bind.
  rewrite (get_not_nullish x "branch" st Hx).
  now rewrite (get_not_nullish parent "branch" st Hp).
Qed.

(** Extra X6.  When the booksNew collection holds [undefined] or [null]
    anywhere, after entries that can be read, [Library.booksNew] throws a
    TypeError for every parent that can be read: [filter] visits every
    element, whatever its branch. *)
Theorem Library_booksNew_throws_on_hole
  (parent : value) (st : store) (pre post : list value) (x : value) :
  is_nullish parent = false ->
  booksNew st = (pre ++ x :: post)%list ->
  (forall y, In y pre -> is_nullish y = false) ->
  is_nullish x = true ->
  Library_booksNew parent st = (Throw TypeError, st).
Proof.
  intros Hp Hsplit Hpre Hx. unfold Library_booksNew. rewrite Hsplit.
  unfold bind at 1. rewrite (array_filter_app_throw _ pre post x TypeError st).
  - reflexivity.
  - intros y Hy. eexists.
    apply (Library_booksNew_callback parent y st (Hpre y Hy) Hp).
  - unfold bind. now rewrite (get_nullish x "branch" st Hx).
Qed.

Lemma Library_booksNew_throws_on_hole_witness :
  Library_booksNew (VObject [("branch", VString "downtown")])
    {| books := []; authors := []; libraries := [];
       booksNew := [ VObject [("branch", VString "downtown")]; VNull ] |} =
  (Throw TypeError,
   {| books := []; authors := []; libraries := [];
      booksNew := [ VObject [("branch", VString "downtown")]; VNull ] |}).
Proof.
  apply (Library_booksNew_throws_on_hole
           (VObject [("branch", VString "downtown")]) _
           [ VObject [("branch", VString "downtown")] ] [] VNull).
  - reflexivity.
  - reflexivity.
  - intros y [<-|[]]. reflexivity.
  - reflexivity.
Defined.

(** Extra X7.  [Library.booksNew] called with [undefined] or [null] as the
    parent throws a TypeError as soon as the booksNew collection starts with
    an entry that can be read: the callback reads [parent.branch] for each
    element. *)
Theorem Library_booksNew_throws_without_parent
  (parent : value) (st : store) (x : value) (rest : list value) :
  is_nullish parent = true ->
  booksNew st = x :: rest ->
  is_nullish x = false ->
  Library_booksNew parent st = (Throw TypeError, st).
Proof.
  intros Hp Hsplit Hx. unfold Library_booksNew. rewrite Hsplit.
  simpl. unfold bind.
  rewrite (get_not_nullish x "branch" st Hx).
  now rewrite (get_nullish parent "branch" st Hp).
Qed.

Lemma Library_booksNew_throws_without_parent_witness :
  Library_booksNew VUndefined seed_store = (Throw TypeError, seed_store).
Proof.
  apply (Library_booksNew_throws_without_parent VUndefined seed_store
           (VObject [("title", VString "The Awakening");
                     ("author", VString "Kate Chopin");
                     ("branch", VString "riverside")])
           [ VObject [("title", VString "City of Glass");
                      ("author", VString "Paul Auster");
                      ("branch", VString "downtown")] ]).
  - reflexivity.
  - reflexivity.
  - reflexivity.
Defined.

(** Extra X8.  On any booksNew collection of objects, an entry whose branch
    is the text [b] is in the result of [Library.booksNew] for a library of
    branch [b'] exactly when [b'] is [b]: every entry is listed under its
    own branch and under no other. *)
Theorem Library_booksNew_lists_entry_under_its_branch_only
  (props : list (string * value)) (b b' : string) (st : store) (e : value) :
  forallb is_object (booksNew st) = true ->
  lookup "branch" props = Some (VString b') ->
  In e (booksNew st) ->
  prop e "branch" = VString b ->
  exists items,
    Library_booksNew (VObject props) st = (Ok (VArray items), st)
    /\ (In e items <-> b' = b).
Proof.
  intros Hobj Hb' He Hbranch.
  exists (filter (has_branch b') (booksNew st)).
  split; [exact (Library_booksNew_filter props b' st Hobj Hb')|].
  rewrite filter_In. unfold has_branch. rewrite Hbranch.
  rewrite String.eqb_eq. split.
  - intros [_ H]. now symmetry.
  - intros ->. now split.
Qed.

Lemma Library_booksNew_lists_entry_under_its_branch_only_witness :
  exists items,
    Library_booksNew (VObject [("branch", VString "downtown")]) seed_store =
      (Ok (VArray items), seed_store)
    /\ (In (VObject [("title", VString "The Awakening");
                     ("author", VString "Kate Chopin");
                     ("branch", VString "riverside")]) items
        <-> "downtown" = "riverside").
Proof.
  apply (Library_booksNew_lists_entry_under_its_branch_only
           [("branch", VString "downtown")] "riverside" "downtown" seed_store).
  - reflexivity.
  - reflexivity.
  - simpl. auto.
  - reflexivity.
Defined.

(** Extra X9.  For a parent object with no [branch] property,
    [Library.booksNew] returns the entries that have no branch either
    ([undefined === undefined]); when every entry has a branch it returns the
    empty array. *)
Theorem Library_booksNew_parent_without_branch
  (props : list (string * value)) (st : store) :
  lookup "branch" props = None ->
  (forall x, In x (booksNew st) -> is_nullish x = false) ->
  Library_booksNew (VObject props) st =
    (Ok (VArray (filter lacks_branch (booksNew st))), st)
  /\ ((forall x, In x (booksNew st) -> prop x "branch" <> VUndefined) ->
      Library_booksNew (VObject props) st = (Ok (VArray []), st)).
Proof.
  intros Hnone Hread.
  assert (Hres : Library_booksNew (VObject props) st =
                 (Ok (VArray (filter lacks_branch (booksNew st))), st)).
  { unfold Library_booksNew. unfold bind at 1.
    rewrite (array_filter_pure lacks_branch); [reflexivity|].
    intros x Hx.
    rewrite (Library_booksNew_callback (VObject props) x st (Hread x Hx) eq_refl).
    unfold lacks_branch, prop, own_property. now rewrite Hnone. }
  split; [exact Hres|].
  intro Hall. rewrite Hres. rewrite filter_nothing; [reflexivity|].
  intros x Hx. specialize (Hall x Hx). unfold lacks_branch.
  destruct (prop x "branch"); try reflexivity. now contradiction Hall.
Qed.

Lemma Library_booksNew_parent_without_branch_witness :
  Library_booksNew (VObject []) seed_store = (Ok (VArray []), seed_store).
Proof.
  apply (Library_booksNew_parent_without_branch [] seed_store).
  - reflexivity.
  - intros x [<-|[<-|[]]]; reflexivity.
  - intros x [<-|[<-|[]]]; discriminate.
Defined.

(** ** [BookNew.author], [Mutation.addBook] and whole requests *)

(** Extra X10.  Resolving the author of a BookNew entry and then the author's
    name gives the entry's own [author] property back, [undefined] when the
    entry has none; on [undefined] or [null] as the entry, [BookNew.author]
    throws a TypeError and the name is never resolved. *)
Theorem BookNew_author_name_is_entry_author
  (entry args args' contextValue info : value) (st : store) :
  (let* a := resolve_field "BookNew" "author" entry args contextValue info in
   resolve_field "AuthorNew" "name" a args' contextValue info) st =
  (if is_nullish entry then Throw TypeError else Ok (prop entry "author"), st).
Proof. destruct entry; reflexivity. Qed.

(** Extra X11.  From any store, no sequence of resolver calls, mutations
    included, changes the store; so after any number of [addBook] calls the
    next one still returns the books of the starting store plus its own one
    entry, and earlier entries never accumulate. *)
Theorem resolver_calls_never_change_store (st st' : store) :
  clos_refl_trans store step st st' ->
  st' = st
  /\ forall title author,
       Mutation_addBook title author st' =
       (Ok (VArray (books st ++
                    [VObject [("title", title); ("author", author)]])), st').
Proof.
  intro Hsteps.
  assert (Hsame : st' = st).
  { induction Hsteps as [st1 st2 Hstep| |st1 st2 st3 _ IH12 _ IH23].
    - destruct Hstep. apply preserves_resolve_field.
    - reflexivity.
    - congruence. }
  split; [exact Hsame|]. intros title author. now rewrite Hsame.
Qed.

Lemma resolver_calls_never_change_store_witness :
  clos_refl_trans store step seed_store
    (snd (resolve_field "Mutation" "addBook" VUndefined
            (VObject [("title", VString "New Title");
                      ("author", VString "New Author")]) VNull VNull seed_store))
  /\ snd (resolve_field "Mutation" "addBook" VUndefined
            (VObject [("title", VString "New Title");
                      ("author", VString "New Author")]) VNull VNull seed_store) =
     seed_store.
Proof.
  split; [apply rt_step; apply step_call|].
  apply (resolver_calls_never_change_store seed_store).
  apply rt_step. apply step_call.
Defined.

(** Extra X12.  A whole request, query or mutation, whatever fields it
    selects and whatever arguments it carries, leaves the store as it found
    it, also when it ends in an error. *)
Theorem requests_leave_store_unchanged
  (contextValue info : value) (s : selection) (st : store) :
  snd (execute_query contextValue info s st) = st
  /\ snd (execute_mutation contextValue info s st) = st.
Proof. split; apply preserves_execute_field. Qed.

(** ** The schema and the resolver table *)

(** Extra X13.  Every resolver of the table is keyed by a type and a field
    that the schema declares. *)
Theorem resolvers_are_schema_fields
  (typeName fieldName : string) (fields : list (string * resolver))
  (r : resolver) :
  In (typeName, fields) resolvers ->
  In (fieldName, r) fields ->
  exists ty, field_type typeName fieldName = Some ty.
Proof.
  intros HT Hf. simpl in HT.
  repeat (destruct HT as [HT|HT]; [injection HT as <- <-; simpl in Hf|]);
    try contradiction;
    repeat (destruct Hf as [Hf|Hf]; [injection Hf as <- <-|]);
    try contradiction;
    eexists; reflexivity.
Qed.

Lemma resolvers_are_schema_fields_witness :
  exists ty, field_type "Library" "booksNew" = Some ty.
Proof.
  apply (resolvers_are_schema_fields "Library" "booksNew"
           [("booksNew", fun parent _ _ _ => Library_booksNew parent)]
           (fun parent _ _ _ => Library_booksNew parent)).
  - simpl. auto.
  - simpl. auto.
Defined.

(** Extra X14.  Every field of the schema has a type that the schema
    declares or a built-in scalar. *)
Theorem typeDefs_field_types_are_declared
  (typeName fieldName : string) (fields : list (string * gql_type))
  (ty : gql_type) :
  In (typeName, fields) typeDefs ->
  In (fieldName, ty) fields ->
  is_object_type (named_type ty) = true \/ In (named_type ty) builtin_scalars.
Proof.
  intros HT Hf. simpl in HT.
  repeat (destruct HT as [HT|HT]; [injection HT as <- <-; simpl in Hf|]);
    try contradiction;
    repeat (destruct Hf as [Hf|Hf]; [injection Hf as <- <-|]);
    try contradiction;
    first [ left; reflexivity | right; simpl; tauto ].
Qed.

Lemma typeDefs_field_types_are_declared_witness :
  is_object_type "Books" = true \/ In "Books" builtin_scalars.
Proof.
  apply (typeDefs_field_types_are_declared "Author" "books"
           [ ("id", NonNull (Named "ID"));
             ("name", Named "String");
             ("books", ListOf (Named "Books")) ]
           (ListOf (Named "Books"))).
  - simpl. auto.
  - simpl. auto.
Defined.

(** Extra X15.  Every type the schema declares can be reached from a root
    type through field types; [Books] is the element type of
    [Author.books]. *)
Theorem typeDefs_types_are_reachable
  (typeName : string) (fields : list (string * gql_type)) :
  In (typeName, fields) typeDefs ->
  reaches typeName.
Proof.
  assert (HBook : reaches "Book")
    by exact (reaches_field "Query" "books" _ reaches_Query eq_refl).
  assert (HAuthor : reaches "Author")
    by exact (reaches_field "Query" "authors" _ reaches_Query eq_refl).
  assert (HLibrary : reaches "Library")
    by exact (reaches_field "Query" "libraries" _ reaches_Query eq_refl).
  assert (HBooks : reaches "Books")
    by exact (reaches_field "Author" "books" _ HAuthor eq_refl).
  assert (HBookNew : reaches "BookNew")
    by exact (reaches_field "Library" "booksNew" _ HLibrary eq_refl).
  assert (HAuthorNew : reaches "AuthorNew")
    by exact (reaches_field "BookNew" "author" _ HBookNew eq_refl).
  intro HT. simpl in HT.
  repeat (destruct HT as [HT|HT]; [injection HT as <- _|]);
    try contradiction;
    first [ assumption | exact reaches_Query | exact reaches_Mutation ].
Qed.

Lemma typeDefs_types_are_reachable_witness : reaches "Books".
Proof.
  apply (typeDefs_types_are_reachable "Books" [ ("title", Named "String") ]).
  simpl. auto.
Defined.

(** ** The booksNew request on any store *)

Lemma mapM_pure {A B : Type} (f : A -> M B) (g : A -> B) (l : list A)
  (st : store) :
  (forall x, In x l -> f x st = (Ok (g x), st)) ->
  mapM f l st = (Ok (map g l), st).
Proof.
  intro H. induction l as [|x rest IH]; simpl; [reflexivity|].
  unfold bind. rewrite (H x (or_introl eq_refl)).
  rewrite IH by (intros y Hy; apply H; now right). reflexivity.
Qed.

(** Extra X16.  On any booksNew collection of objects with a text title and
    a text author, the request for the BookNew entries of a library of
    branch [b], each with its title and its author's name, yields, in the
    order of the collection, one [{title, author: {name}}] per entry of
    branch [b], built from the entry's own title and author. *)
Theorem booksNew_request_on_any_store
  (contextValue info : value) (props : list (string * value)) (b : string)
  (st : store) :
  (forall x, In x (booksNew st) ->
     is_object x = true
     /\ (exists t, prop x "title" = VString t)
     /\ (exists a, prop x "author" = VString a)) ->
  lookup "branch" props = Some (VString b) ->
  execute_field contextValue info "Library" booksNew_request (VObject props) st =
  (Ok (VArray (map BookNew_response (filter (has_branch b) (booksNew st)))), st).
Proof.
  intros Hshape Hb.
  assert (Hobj : forallb is_object (booksNew st) = true).
  { apply forallb_forall. intros x Hx. apply (Hshape x Hx). }
  unfold booksNew_request. simpl.
  change (resolve_field "Library" "booksNew" (VObject props) (VObject [])
            contextValue info)
    with (Library_booksNew (VObject props)).
  unfold bind at 1. rewrite (Library_booksNew_filter props b st Hobj Hb).
  unfold bind at 1.
  rewrite (mapM_pure _ BookNew_response).
  - reflexivity.
  - intros x Hx. apply filter_In in Hx. destruct Hx as [Hx _].
    destruct (Hshape x Hx) as [Hox [[t Ht] [a Ha]]].
    destruct x as [| | | |xp|]; try discriminate.
    simpl in Ht, Ha. unfold BookNew_response, prop. rewrite Ht, Ha.
    unfold bind, resolve_field. simpl. unfold bind. simpl.
    rewrite Ht. simpl. unfold bind. simpl. rewrite Ha. reflexivity.
Qed.

Lemma booksNew_request_on_any_store_witness :
  execute_field VNull VNull "Library" booksNew_request
    (VObject [("branch", VString "north")])
    {| books := []; authors := []; libraries := [];
       booksNew := [ VObject [("title", VString "A"); ("author", VString "X");
                              ("branch", VString "north")];
                     VObject [("title", VString "B"); ("author", VString "Y");
                              ("branch", VString "south")];
                     VObject [("title", VString "C"); ("author", VString "Z");
                              ("branch", VString "north")] ] |} =
  (Ok (VArray
         [ VObject [("title", VString "A");
                    ("author", VObject [("name", VString "X")])];
           VObject [("title", VString "C");
                    ("author", VObject [("name", VString "Z")])] ]),
   {| books := []; authors := []; libraries := [];
      booksNew := [ VObject [("title", VString "A"); ("author", VString "X");
                             ("branch", VString "north")];
                    VObject [("title", VString "B"); ("author", VString "Y");
                             ("branch", VString "south")];
                    VObject [("title", VString "C"); ("author", VString "Z");
                             ("branch", VString "north")] ] |}).
Proof.
  apply (booksNew_request_on_any_store VNull VNull
           [("branch", VString "north")] "north").
  - intros x [<-|[<-|[<-|[]]]];
      (split; [reflexivity|]); split; eexists; reflexivity.
  - reflexivity.
Defined.
